(** * CosmicClock.vue: the moon-phase path builder

    Shallow embedding of the [isWaxing] and [pathD] computed properties of
    [src/frontend/src/components/CosmicClock.vue].

    Numbers.  A JavaScript number is modelled as an extended rational:
    a finite value (a [Q]), [NaN], or one of the two infinities.  The
    arithmetic on finite values is exact (rounding of IEEE doubles is not
    modelled, nor is the sign of zero); the NaN and infinity rules follow
    IEEE 754 as JavaScript uses them.

    Paths.  [pathD] returns an SVG path string assembled from literal
    text and the single interpolated number [rx].  The string is modelled
    as the list of SVG commands it spells: the literal coordinates are
    rationals, the radii are JavaScript numbers (the [rx] radius is the
    interpolated value). *)

From Stdlib Require Import QArith Qabs ZArith Bool List Lia Lqa.
From Stdlib Require Import Strings.String Strings.Ascii.
Import ListNotations.
Open Scope string_scope.

(** ** JavaScript numbers *)

Inductive jsnum : Type :=
| JFin (q : Q)
| JNaN
| JPosInf
| JNegInf.

Definition js_neg (x : jsnum) : jsnum :=
  match x with
  | JFin a => JFin (- a)
  | JNaN => JNaN
  | JPosInf => JNegInf
  | JNegInf => JPosInf
  end.

(** [x + y] *)
Definition js_add (x y : jsnum) : jsnum :=
  match x, y with
  | JNaN, _ | _, JNaN => JNaN
  | JFin a, JFin b => JFin (a + b)
  | JPosInf, JNegInf | JNegInf, JPosInf => JNaN
  | JPosInf, _ | _, JPosInf => JPosInf
  | JNegInf, _ | _, JNegInf => JNegInf
  end.

(** [x - y] *)
Definition js_sub (x y : jsnum) : jsnum := js_add x (js_neg y).

(** Sign of a non-NaN number: [Lt], [Eq] or [Gt] compared with 0. *)
Definition js_sign (x : jsnum) : option comparison :=
  match x with
  | JFin a => Some (Qcompare a 0)
  | JNaN => None
  | JPosInf => Some Gt
  | JNegInf => Some Lt
  end.

Definition inf_of_sign (c : comparison) : jsnum :=
  match c with
  | Gt => JPosInf
  | Lt => JNegInf
  | Eq => JNaN
  end.

(** Product of two signs; [Eq] is absorbing. *)
Definition sign_mul (c d : comparison) : comparison :=
  match c, d with
  | Eq, _ | _, Eq => Eq
  | Gt, Gt | Lt, Lt => Gt
  | _, _ => Lt
  end.

(** [x * y]: an infinite factor gives an infinity of the product's sign,
    or NaN when the other factor is 0. *)
Definition js_mul (x y : jsnum) : jsnum :=
  match x, y with
  | JFin a, JFin b => JFin (a * b)
  | _, _ =>
      match js_sign x, js_sign y with
      | Some c, Some d => inf_of_sign (sign_mul c d)
      | _, _ => JNaN
      end
  end.

(** [x / y] *)
Definition js_div (x y : jsnum) : jsnum :=
  match x, y with
  | JFin a, JFin b =>
      if Qeq_bool b 0 then inf_of_sign (Qcompare a 0) else JFin (a / b)
  | JFin _, (JPosInf | JNegInf) => JFin 0
  | (JPosInf | JNegInf), JFin b =>
      if Qeq_bool b 0 then x   (* divided by +0 *)
      else match js_sign x with
           | Some c => inf_of_sign (sign_mul c (Qcompare b 0))
           | None => JNaN
           end
  | _, _ => JNaN
  end.

(** [Math.abs(x)] *)
Definition js_abs (x : jsnum) : jsnum :=
  match x with
  | JFin a => JFin (Qabs a)
  | JNaN => JNaN
  | _ => JPosInf
  end.

(** Relational operators: every comparison with NaN is false. *)
Definition js_le (x y : jsnum) : bool :=
  match x, y with
  | JNaN, _ | _, JNaN => false
  | JFin a, JFin b => Qle_bool a b
  | JNegInf, _ | _, JPosInf => true
  | _, _ => false
  end.

Definition js_lt (x y : jsnum) : bool :=
  match x, y with
  | JNaN, _ | _, JNaN => false
  | JFin a, JFin b => negb (Qle_bool b a)
  | JNegInf, JNegInf | JPosInf, JPosInf => false
  | JNegInf, _ | _, JPosInf => true
  | _, _ => false
  end.

(** [x >= y] and [x > y] *)
Definition js_ge (x y : jsnum) : bool := js_le y x.
Definition js_gt (x y : jsnum) : bool := js_lt y x.

(** ** Strings *)

(** Strings.  A Rocq [string] stands for a JavaScript string whose code
    units all lie in U+0000..U+00FF (Latin-1): each [ascii] byte is one
    code unit, read as that code point.

    [String.prototype.toLowerCase] on such a string: by the Unicode case
    mappings, the upper-case letters of the range are 'A'..'Z'
    (U+0041..U+005A), U+00C0..U+00D6 and U+00D8..U+00DE, each of which
    lowers to the code point 0x20 above it; every other code point of
    the range (U+00D7, U+00DF, U+00B5, U+00FF, ...) is its own lower
    case.  So the function below is [toLowerCase] on every string of the
    type. *)
Definition lower_char (c : ascii) : ascii :=
  let n := nat_of_ascii c in
  if ((65 <=? n)%nat && (n <=? 90)%nat) ||
     ((192 <=? n)%nat && (n <=? 222)%nat && negb (n =? 215)%nat)
  then ascii_of_nat (n + 32)%nat else c.

Fixpoint toLowerCase (s : string) : string :=
  match s with
  | EmptyString => EmptyString
  | String c s' => String (lower_char c) (toLowerCase s')
  end.

(** [s.startsWith(pre)] *)
Fixpoint startsWith (s pre : string) : bool :=
  match pre, s with
  | EmptyString, _ => true
  | String c pre', String d s' => Ascii.eqb c d && startsWith s' pre'
  | String _ _, EmptyString => false
  end.

(** [s.includes(sub)]: [sub] occurs at some position of [s]. *)
Fixpoint includes (s sub : string) : bool :=
  startsWith s sub ||
  match s with
  | EmptyString => false
  | String _ s' => includes s' sub
  end.

(** ** Component properties *)

(** [defineProps]: [percent] is a required Number, [phase] defaults to
    ['New Moon'] and [hemisphere] to ['Northern'] when omitted. *)
Record raw_props : Type := {
  raw_percent : jsnum;
  raw_phase : option string;
  raw_hemisphere : option string
}.

Record props : Type := {
  percent : jsnum;
  phase : string;
  hemisphere : string
}.

Definition resolve_props (r : raw_props) : props :=
  {| percent := raw_percent r;
     phase := match raw_phase r with Some s => s | None => "New Moon" end;
     hemisphere := match raw_hemisphere r with Some s => s | None => "Northern" end |}.

(** ** The computed properties *)

(** [isWaxing] *)
Definition isWaxing (pr : props) : bool :=
  let p := toLowerCase (phase pr) in
  includes p "waxing" || includes p "first".

(** The local [litRight] of [pathD]. *)
Definition litRight (pr : props) : bool :=
  let lr := isWaxing pr in
  if String.eqb (hemisphere pr) "Southern" then negb lr else lr.

(** SVG path commands. *)
Inductive seg : Type :=
| SMove (x y : Q)                                        (* M x,y *)
| SArc (rx ry : jsnum) (rot large sweep : Z) (x y : Q)   (* A rx,ry rot large,sweep x,y *)
| SClose.                                                (* Z *)

Definition path := list seg.

Definition js45 : jsnum := JFin 45.

(** ['M 50,5 A 45,45 0 1,1 50,95 A 45,45 0 1,1 50,5'] *)
Definition full_circle_path : path :=
  [SMove 50 5; SArc js45 js45 0 1 1 50 95; SArc js45 js45 0 1 1 50 5].

(** [''] *)
Definition empty_path : path := [].

(** The local [rx] of [pathD]: [45 * 2 * Math.abs(0.5 - p)]. *)
Definition terminator_rx (p : jsnum) : jsnum :=
  js_mul (js_mul (JFin 45) (JFin 2)) (js_abs (js_sub (JFin (1#2)) p)).

(** The local [outerArc]. *)
Definition outerArc (lr : bool) : path :=
  if lr then [SMove 50 5; SArc js45 js45 0 0 1 50 95]
  else [SMove 50 95; SArc js45 js45 0 0 1 50 5].

(** The local [innerSweep]. *)
Definition innerSweep (p : jsnum) (lr : bool) : Z :=
  let s := if js_gt p (JFin (1#2)) then 1%Z else 0%Z in
  if negb lr then (if Z.eqb s 0 then 1%Z else 0%Z) else s.

(** The local [terminator]. *)
Definition terminator (p : jsnum) (lr : bool) : path :=
  [SArc (terminator_rx p) js45 0 0 (innerSweep p lr)
        50 (if lr then 5 else 95)].

(** [pathD] *)
Definition pathD (pr : props) : path :=
  let p := js_div (percent pr) (JFin 100) in
  let lr := litRight pr in
  if js_ge p (JFin (99#100)) then full_circle_path
  else if js_le p (JFin (1#100)) then empty_path
  else (outerArc lr ++ terminator p lr ++ [SClose])%list.

(** ** Views on the output used by the statements *)

(** Every number of a path that is NaN. *)
Definition js_is_nan (x : jsnum) : bool :=
  match x with JNaN => true | _ => false end.

Definition seg_has_nan (s : seg) : bool :=
  match s with
  | SArc rx ry _ _ _ _ _ => js_is_nan rx || js_is_nan ry
  | _ => false
  end.

Definition path_has_nan (d : path) : bool := existsb seg_has_nan d.

(** The terminator's ellipse: an [A rx,45] arc between (50,5) and (50,95)
    has its end points a vertical diameter [2 * 45] apart, so by the SVG
    arc rules its centre is their middle (50,50); the points (x,y) of the
    axis-aligned ellipse with radii [rx] and 45 about it satisfy
    [((x-50)/rx)^2 + ((y-50)/45)^2 = 1], written here without division
    (for [rx = 0] this is the segment x = 50, the straight line SVG draws
    for a zero radius). *)
Definition in_terminator_ellipse (rx x y : Q) : Prop :=
  (x - 50) * (x - 50) * (45 * 45) + (y - 50) * (y - 50) * (rx * rx) == rx * rx * (45 * 45).

(** End points of the [M] and [A] commands of a path. *)
Fixpoint endpoints (d : path) : list (Q * Q) :=
  match d with
  | [] => []
  | SMove x y :: d' => (x, y) :: endpoints d'
  | SArc _ _ _ _ _ x y :: d' => (x, y) :: endpoints d'
  | SClose :: d' => endpoints d'
  end%list.

(** The first arc of a path together with the point it starts from. *)
Definition first_arc (d : path) : option (Q * Q * jsnum * jsnum * Z * Z * Q * Q) :=
  match d with
  | (SMove x1 y1 :: SArc rx ry _ large sw x2 y2 :: _)%list =>
      Some (x1, y1, rx, ry, large, sw, x2, y2)
  | _ => None
  end.

(** SVG arc semantics for a circular arc whose end points are a diameter
    apart: the centre is the middle of the chord and the arc passes
    through the chord's middle rotated by a quarter turn, in the
    direction of increasing angle (sweep flag 1, clockwise on screen
    with the y axis pointing down) or of decreasing angle (sweep 0). *)
Definition half_arc_midpoint (x1 y1 : Q) (sweep : Z) (x2 y2 : Q) : Q * Q :=
  let cx := (x1 + x2) / 2 in
  let cy := (y1 + y2) / 2 in
  let vx := x1 - cx in
  let vy := y1 - cy in
  if Z.eqb sweep 1 then (cx - vy, cy + vx) else (cx + vy, cy - vx).

(** Clamping a percent to [[0,100]] (the spec's remedy for out-of-range
    input). *)
Definition clamp_percent (q : Q) : Q :=
  if Qle_bool q 0 then 0 else if Qle_bool 100 q then 100 else q.

Definition with_percent (pr : props) (x : jsnum) : props :=
  {| percent := x; phase := phase pr; hemisphere := hemisphere pr |}.

(** ** The clock of CosmicClock.vue (and of its older copy) *)

Section Clock.
Local Open Scope Z_scope.

(** [formattedDate]: the English ordinal suffix of [dayNum = d.getDate()];
    JavaScript's [%] on integers is [Z.rem]. *)
Definition ordinal_suffix (dayNum : Z) : string :=
  let j := Z.rem dayNum 10 in
  let k := Z.rem dayNum 100 in
  if Z.eqb j 1 && negb (Z.eqb k 11) then "st"
  else if Z.eqb j 2 && negb (Z.eqb k 12) then "nd"
  else if Z.eqb j 3 && negb (Z.eqb k 13) then "rd"
  else "th".

(** The eight translation keys [timePhase] chooses from. *)
Inductive clock_phase : Type :=
| SilentWatch | BeforeDawn | MorningAscent | SunsZenith
| SunsDominion | EveningsEmbrace | TwilightsDeep | NightsDepth.

Definition clock_phase_key (c : clock_phase) : string :=
  match c with
  | SilentWatch => "clock.phases.silent_watch"
  | BeforeDawn => "clock.phases.before_dawn"
  | MorningAscent => "clock.phases.morning_ascent"
  | SunsZenith => "clock.phases.suns_zenith"
  | SunsDominion => "clock.phases.suns_dominion"
  | EveningsEmbrace => "clock.phases.evenings_embrace"
  | TwilightsDeep => "clock.phases.twilights_deep"
  | NightsDepth => "clock.phases.nights_depth"
  end.

(** The branch [timePhase] takes for the hour [h = now.value.getHours()]. *)
Definition timePhase_branch (h : Z) : clock_phase :=
  if (0 <=? h) && (h <? 3) then SilentWatch
  else if (3 <=? h) && (h <? 6) then BeforeDawn
  else if (6 <=? h) && (h <? 12) then MorningAscent
  else if (12 <=? h) && (h <? 14) then SunsZenith
  else if (14 <=? h) && (h <? 17) then SunsDominion
  else if (17 <=? h) && (h <? 20) then EveningsEmbrace
  else if (20 <=? h) && (h <? 22) then TwilightsDeep
  else NightsDepth.

(** [timePhase], with the translation function [t] of vue-i18n. *)
Definition timePhase (t : string -> string) (h : Z) : string :=
  t (clock_phase_key (timePhase_branch h)).

(** Position of a phase in the day. *)
Definition clock_phase_index (c : clock_phase) : nat :=
  match c with
  | SilentWatch => 0 | BeforeDawn => 1 | MorningAscent => 2 | SunsZenith => 3
  | SunsDominion => 4 | EveningsEmbrace => 5 | TwilightsDeep => 6 | NightsDepth => 7
  end.

(** The [timePhase] of the older, untranslated clock component (an
    unnamed source file of the repository), which returns English text. *)
Definition timePhase_plain (h : Z) : string :=
  if (0 <=? h) && (h <? 3) then "The Silent Watch"
  else if (3 <=? h) && (h <? 6) then "Before the Dawn"
  else if (6 <=? h) && (h <? 12) then "Morning's Ascent"
  else if (12 <=? h) && (h <? 14) then "Sun's Zenith"
  else if (14 <=? h) && (h <? 17) then "Sun's Dominion"
  else if (17 <=? h) && (h <? 20) then "Evening's Embrace"
  else if (20 <=? h) && (h <? 22) then "Twilight's Deep"
  else "Night's Depth".

(** The English text the older component shows for each phase. *)
Definition clock_phase_english (c : clock_phase) : string :=
  match c with
  | SilentWatch => "The Silent Watch"
  | BeforeDawn => "Before the Dawn"
  | MorningAscent => "Morning's Ascent"
  | SunsZenith => "Sun's Zenith"
  | SunsDominion => "Sun's Dominion"
  | EveningsEmbrace => "Evening's Embrace"
  | TwilightsDeep => "Twilight's Deep"
  | NightsDepth => "Night's Depth"
  end.

(** The hours [getHours] can return. *)
Definition day_hours : list Z := map Z.of_nat (seq 0 24).

End Clock.

(** ** The page component (App.vue)

    The page's [<script setup>] keeps its state in refs and talks to the
    backend through [axios.get].  The backend answers are the parameters
    of the model: [search_location q], [reverse_geocode lat lon] and
    [astro_data lat lon date] give, for the query parameters of the
    request, either a response carrying [response.data] ([None] when the
    body is [null]) or a rejected promise.  A handler runs to completion
    before the next event: the model does not interleave two handlers
    across an [await].  Strings the user types are lists of UTF-16 code
    units, so that [.length] is the list's length. *)

Module App.

Local Set Implicit Arguments.

Definition jstr := list N.

Inductive resp (A : Type) : Type :=
| RespOk (data : option A)
| RespErr.
Arguments RespOk {A} data.
Arguments RespErr {A}.

Section Page.

(** A location returned by the geocoder, with its [name], [lat], [lon]. *)
Variable Loc : Type.
Variable loc_name : Loc -> jstr.
Variable Coord : Type.
Variable loc_lat : Loc -> Coord.
Variable loc_lon : Loc -> Coord.
(** The body of [/astro-data] and the value of the date input. *)
Variable AstroData : Type.
Variable DateStr : Type.

Variable search_location : jstr -> resp (list Loc).
Variable reverse_geocode : Coord -> Coord -> resp Loc.
Variable astro_data : Coord -> Coord -> DateStr -> resp AstroData.

(** The refs of the page ([showCoords] only toggles a display). *)
Record state : Type := {
  loading : bool;
  error : option string;
  astroData : option AstroData;
  searchQuery : jstr;
  lat : Coord;
  lon : Coord;
  date : DateStr;
  isSearching : bool;
  locationDetails : option Loc;
  suggestions : list Loc;
  showSuggestions : bool
}.

Definition set_loading (b : bool) (s : state) : state :=
  {| loading := b; error := error s; astroData := astroData s;
     searchQuery := searchQuery s; lat := lat s; lon := lon s; date := date s;
     isSearching := isSearching s; locationDetails := locationDetails s;
     suggestions := suggestions s; showSuggestions := showSuggestions s |}.

Definition set_error (e : option string) (s : state) : state :=
  {| loading := loading s; error := e; astroData := astroData s;
     searchQuery := searchQuery s; lat := lat s; lon := lon s; date := date s;
     isSearching := isSearching s; locationDetails := locationDetails s;
     suggestions := suggestions s; showSuggestions := showSuggestions s |}.

Definition set_astroData (d : option AstroData) (s : state) : state :=
  {| loading := loading s; error := error s; astroData := d;
     searchQuery := searchQuery s; lat := lat s; lon := lon s; date := date s;
     isSearching := isSearching s; locationDetails := locationDetails s;
     suggestions := suggestions s; showSuggestions := showSuggestions s |}.

Definition set_searchQuery (q : jstr) (s : state) : state :=
  {| loading := loading s; error := error s; astroData := astroData s;
     searchQuery := q; lat := lat s; lon := lon s; date := date s;
     isSearching := isSearching s; locationDetails := locationDetails s;
     suggestions := suggestions s; showSuggestions := showSuggestions s |}.

Definition set_coords (la lo : Coord) (s : state) : state :=
  {| loading := loading s; error := error s; astroData := astroData s;
     searchQuery := searchQuery s; lat := la; lon := lo; date := date s;
     isSearching := isSearching s; locationDetails := locationDetails s;
     suggestions := suggestions s; showSuggestions := showSuggestions s |}.

Definition set_isSearching (b : bool) (s : state) : state :=
  {| loading := loading s; error := error s; astroData := astroData s;
     searchQuery := searchQuery s; lat := lat s; lon := lon s; date := date s;
     isSearching := b; locationDetails := locationDetails s;
     suggestions := suggestions s; showSuggestions := showSuggestions s |}.

Definition set_locationDetails (l : option Loc) (s : state) : state :=
  {| loading := loading s; error := error s; astroData := astroData s;
     searchQuery := searchQuery s; lat := lat s; lon := lon s; date := date s;
     isSearching := isSearching s; locationDetails := l;
     suggestions := suggestions s; showSuggestions := showSuggestions s |}.

Definition set_suggestions (l : list Loc) (s : state) : state :=
  {| loading := loading s; error := error s; astroData := astroData s;
     searchQuery := searchQuery s; lat := lat s; lon := lon s; date := date s;
     isSearching := isSearching s; locationDetails := locationDetails s;
     suggestions := l; showSuggestions := showSuggestions s |}.

Definition set_showSuggestions (b : bool) (s : state) : state :=
  {| loading := loading s; error := error s; astroData := astroData s;
     searchQuery := searchQuery s; lat := lat s; lon := lon s; date := date s;
     isSearching := isSearching s; locationDetails := locationDetails s;
     suggestions := suggestions s; showSuggestions := b |}.

Definition msg_connection := "The stars remain silent... (Connection Error)".
Definition msg_not_found := "Location not found in the star charts.".
Definition msg_geocoding := "Could not consult the cartographer (Geocoding Error)".
Definition msg_no_geolocation := "Your browser does not support celestial positioning.".
Definition msg_unidentified := "Could not identify your realm from the stars.".
Definition msg_denied := "Permission to view your realm was denied.".

(** [fetchData], up to its [await] ... *)
Definition fetchData_begin (s : state) : state :=
  set_astroData None (set_error None (set_loading true s)).

(** ... and after it, given the response. *)
Definition fetchData_end (r : resp AstroData) (s : state) : state :=
  match r with
  | RespOk d => set_loading false (set_astroData d s)
  | RespErr => set_loading false (set_error (Some msg_connection) s)
  end.

Definition fetchData (s : state) : state :=
  let s1 := fetchData_begin s in
  fetchData_end (astro_data (lat s1) (lon s1) (date s1)) s1.

(** [fetchSuggestions] *)
Definition fetchSuggestions (s : state) : state :=
  let q := searchQuery s in
  if (match q with [] => true | _ => false end) || (List.length q <? 3)%nat then
    set_suggestions [] s
  else
    match search_location q with
    | RespOk d =>
        set_showSuggestions true
          (set_suggestions (match d with Some l => l | None => [] end) s)
    | RespErr => s
    end.

(** [selectLocation(loc)] *)
Definition selectLocation (loc : Loc) (s : state) : state :=
  let s1 := set_suggestions [] (set_showSuggestions false
              (set_locationDetails (Some loc)
                 (set_coords (loc_lat loc) (loc_lon loc)
                    (set_searchQuery (loc_name loc) s)))) in
  fetchData s1.

(** The test the [searchQuery] watcher runs when its debounce timer fires:
    [newVal && (!locationDetails.value || newVal !== locationDetails.value.name)]. *)
Definition watch_fires (newVal : jstr) (s : state) : bool :=
  match newVal with [] => false | _ => true end &&
  match locationDetails s with
  | None => true
  | Some l => if list_eq_dec N.eq_dec newVal (loc_name l) then false else true
  end.

(** [searchLocation] *)
Definition searchLocation (s : state) : state :=
  match searchQuery s with
  | [] => s
  | _ =>
      let s1 := set_showSuggestions false (set_locationDetails None
                  (set_error None (set_isSearching true s))) in
      match search_location (searchQuery s1) with
      | RespOk (Some (loc :: _)) =>
          set_isSearching false
            (fetchData (set_locationDetails (Some loc)
                          (set_coords (loc_lat loc) (loc_lon loc) s1)))
      | RespOk _ => set_isSearching false (set_error (Some msg_not_found) s1)
      | RespErr => set_isSearching false (set_error (Some msg_geocoding) s1)
      end
  end.

(** What [navigator.geolocation.getCurrentPosition] reports: a position
    (latitude, longitude) to the success callback, or the error callback. *)
Inductive geo_outcome : Type :=
| GeoPosition (la lo : Coord)
| GeoDenied.

(** [getUserLocation]; [supported] is [!!navigator.geolocation]. *)
Definition getUserLocation (supported : bool) (g : geo_outcome) (s : state) : state :=
  if negb supported then set_error (Some msg_no_geolocation) s
  else
    let s1 := set_locationDetails None (set_error None (set_isSearching true s)) in
    match g with
    | GeoDenied => set_isSearching false (set_error (Some msg_denied) s1)
    | GeoPosition la lo =>
        match reverse_geocode la lo with
        | RespOk (Some loc) =>
            set_isSearching false
              (fetchData (set_searchQuery (loc_name loc)
                            (set_locationDetails (Some loc)
                               (set_coords (loc_lat loc) (loc_lon loc) s1))))
        (* a [null] body makes [loc.lat] throw, caught like a failed request *)
        | _ => set_isSearching false (set_error (Some msg_unidentified) s1)
        end
    end.

(** Template conditions: [v-if="astroData && !loading"], [v-if="error"],
    and the dropdown's [v-if="showSuggestions && suggestions.length > 0"]. *)
Definition main_visible (s : state) : bool :=
  match astroData s with Some _ => negb (loading s) | None => false end.

Definition error_visible (s : state) : bool :=
  match error s with Some _ => true | None => false end.

Definition dropdown_visible (s : state) : bool :=
  showSuggestions s && (0 <? List.length (suggestions s))%nat.

End Page.

Arguments GeoDenied {Coord}.

End App.

(** A concrete instance of the page, to run the handlers on: a place is a
    (name, latitude, longitude) triple, coordinates are integers, the
    astronomical data and the date are numbers, and the backend answers
    every request. *)
Module AppDemo.
Import App.

Definition Loc : Type := (jstr * Z * Z)%type.
Definition loc_name (l : Loc) : jstr := fst (fst l).
Definition loc_lat (l : Loc) : Z := snd (fst l).
Definition loc_lon (l : Loc) : Z := snd l.

Definition brno : Loc := ([66; 114; 110; 111]%N, 49%Z, 16%Z).

Definition search_location (q : jstr) : resp (list Loc) := RespOk (Some [brno]).
(** A geocoding backend that fails on every query. *)
Definition search_location_failing (q : jstr) : resp (list Loc) := RespErr.
Definition reverse_geocode (la lo : Z) : resp Loc := RespOk (Some brno).
Definition astro_data (la lo : Z) (d : nat) : resp nat := RespOk (Some 7%nat).

Definition state0 (q : jstr) : state Loc Z nat nat :=
  {| loading := false; error := None; astroData := Some 3%nat; searchQuery := q;
     lat := 48%Z; lon := 17%Z; date := 1%nat; isSearching := false;
     locationDetails := None; suggestions := [brno]; showSuggestions := true |}.

End AppDemo.

(** ** Lemmas about the embedding *)

Lemma Qdiv100 (q : Q) : q / 100 = q * (1#100).
Proof. reflexivity. Qed.

Lemma js_div_100 (q : Q) : js_div (JFin q) (JFin 100) = JFin (q / 100).
Proof. reflexivity. Qed.

Lemma Qle_bool_false (a b : Q) : b < a -> Qle_bool a b = false.
Proof.
  intros H. destruct (Qle_bool a b) eqn:E; [|reflexivity].
  apply Qle_bool_iff in E. exfalso. exact (Qlt_not_le _ _ H E).
Qed.

Lemma Qle_bool_true (a b : Q) : a <= b -> Qle_bool a b = true.
Proof. apply Qle_bool_iff. Qed.

(** The two degenerate cases on a finite percent. *)
Lemma pathD_fin_full (pr : props) (q : Q) :
  percent pr = JFin q -> (99#100) <= q / 100 -> pathD pr = full_circle_path.
Proof.
  intros Hp Hq. unfold pathD. rewrite Hp, js_div_100. cbn [js_ge js_le].
  rewrite Qle_bool_true by exact Hq. reflexivity.
Qed.

Lemma pathD_fin_empty (pr : props) (q : Q) :
  percent pr = JFin q -> q / 100 <= (1#100) -> pathD pr = empty_path.
Proof.
  intros Hp Hq. unfold pathD. rewrite Hp, js_div_100. cbn [js_ge js_le].
  rewrite Qle_bool_false by (rewrite Qdiv100 in *; lra).
  rewrite Qle_bool_true by exact Hq. reflexivity.
Qed.

(** The general case on a finite percent. *)
Lemma pathD_fin_general (pr : props) (q : Q) :
  percent pr = JFin q -> (1#100) < q / 100 -> q / 100 < (99#100) ->
  pathD pr = (outerArc (litRight pr) ++ terminator (JFin (q / 100)) (litRight pr)
              ++ [SClose])%list.
Proof.
  intros Hp H1 H2. unfold pathD. rewrite Hp, js_div_100. cbn [js_ge js_le].
  rewrite (Qle_bool_false (99#100)) by exact H2.
  rewrite (Qle_bool_false (q / 100)) by exact H1. reflexivity.
Qed.

Lemma terminator_rx_fin (p : Q) :
  terminator_rx (JFin p) = JFin (45 * 2 * Qabs ((1#2) + - p)).
Proof. reflexivity. Qed.

Lemma innerSweep_lt (p : Q) (lr : bool) :
  p < (1#2) -> innerSweep (JFin p) lr = if lr then 0%Z else 1%Z.
Proof.
  intros H. unfold innerSweep. cbn [js_gt js_lt].
  rewrite Qle_bool_true by (apply Qlt_le_weak; exact H).
  destruct lr; reflexivity.
Qed.

Lemma innerSweep_gt (p : Q) (lr : bool) :
  (1#2) < p -> innerSweep (JFin p) lr = if lr then 1%Z else 0%Z.
Proof.
  intros H. unfold innerSweep. cbn [js_gt js_lt].
  rewrite Qle_bool_false by exact H.
  destruct lr; reflexivity.
Qed.

(** [startsWith] and [includes] decide prefix and substring occurrence. *)
Lemma startsWith_spec (s pre : string) :
  startsWith s pre = true <-> exists b, s = pre ++ b.
Proof.
  revert s. induction pre as [|c pre IH]; intros s; destruct s as [|d s]; cbn.
  - split; [intros _; exists ""; reflexivity | reflexivity].
  - split; [intros _; exists (String d s); reflexivity | reflexivity].
  - split; [discriminate | intros [b Hb]; discriminate Hb].
  - rewrite andb_true_iff, Ascii.eqb_eq, IH. split.
    + intros [-> [b ->]]. exists b. reflexivity.
    + intros [b Hb]. injection Hb as -> Hs. split; [reflexivity | exists b; exact Hs].
Qed.

Lemma includes_spec (s sub : string) :
  includes s sub = true <-> exists a b, s = a ++ sub ++ b.
Proof.
  induction s as [|c s IH]; cbn [includes]; rewrite orb_true_iff, startsWith_spec.
  - split.
    + intros [[b Hb] | H]; [exists "", b; exact Hb | discriminate H].
    + intros [[|c a] [b Hb]]; [left; exists b; exact Hb | discriminate Hb].
  - rewrite IH. split.
    + intros [[b Hb] | [a [b Hb]]].
      * exists "", b. exact Hb.
      * exists (String c a), b. rewrite Hb. reflexivity.
    + intros [[|c' a] [b Hb]].
      * left. exists b. exact Hb.
      * right. injection Hb as _ Hs. exists a, b. exact Hs.
Qed.

(** ** Claims *)

(** C4: [isWaxing] holds exactly when the lower-cased phase label
    contains ["waxing"] or ["first"]; every other label is waning.  In
    particular "Waxing Crescent", "First Quarter" and "WAXING GIBBOUS" are
    waxing and "Waning Gibbous", "Last Quarter" and "Full Moon" are
    waning.  Phase labels are strings of Latin-1 code units
    (U+0000..U+00FF), the domain on which [toLowerCase] above follows
    the Unicode lower-case mapping of [String.prototype.toLowerCase]. *)
Theorem isWaxing_spec :
  (forall pr : props,
     isWaxing pr = true <->
     (exists a b, toLowerCase (phase pr) = a ++ "waxing" ++ b) \/
     (exists a b, toLowerCase (phase pr) = a ++ "first" ++ b)) /\
  (forall x h,
     isWaxing {| percent := x; phase := "Waxing Crescent"; hemisphere := h |} = true /\
     isWaxing {| percent := x; phase := "First Quarter"; hemisphere := h |} = true /\
     isWaxing {| percent := x; phase := "WAXING GIBBOUS"; hemisphere := h |} = true /\
     isWaxing {| percent := x; phase := "Waning Gibbous"; hemisphere := h |} = false /\
     isWaxing {| percent := x; phase := "Last Quarter"; hemisphere := h |} = false /\
     isWaxing {| percent := x; phase := "Full Moon"; hemisphere := h |} = false).
Proof.
  split.
  - intros pr. unfold isWaxing.
    rewrite orb_true_iff, !includes_spec. reflexivity.
  - intros x h. repeat split; reflexivity.
Qed.

(** C2: in the general case the terminator arc's horizontal radius is
    [2 * 45 * |0.5 - percent/100|]; it is 0 at percent 50. *)
Theorem terminator_rx_formula (pr : props) (q : Q)
  (Hp : percent pr = JFin q) (H1 : (1#100) < q / 100) (H2 : q / 100 < (99#100)) :
  exists rx sw y,
    pathD pr = (outerArc (litRight pr) ++ [SArc (JFin rx) js45 0 0 sw 50 y; SClose])%list /\
    rx == 2 * 45 * Qabs ((1#2) - q / 100) /\
    (q == 50 -> rx == 0).
Proof.
  rewrite (pathD_fin_general pr q Hp H1 H2). unfold terminator.
  rewrite terminator_rx_fin.
  exists (45 * 2 * Qabs ((1#2) + - (q / 100))), (innerSweep (JFin (q / 100)) (litRight pr)),
    (if litRight pr then 5 else 95).
  split; [reflexivity|]. split.
  - unfold Qminus. ring.
  - intros Hq. rewrite Hq. reflexivity.
Qed.

Lemma terminator_rx_formula_witness :
  exists rx sw y,
    pathD {| percent := JFin 25; phase := "Waxing Crescent"; hemisphere := "Northern" |}
    = (outerArc true ++ [SArc (JFin rx) js45 0 0 sw 50 y; SClose])%list /\
    rx == 2 * 45 * Qabs ((1#2) - 25 / 100) /\ (25 == 50 -> rx == 0).
Proof.
  apply (terminator_rx_formula
           {| percent := JFin 25; phase := "Waxing Crescent"; hemisphere := "Northern" |} 25);
    [reflexivity | vm_compute; reflexivity | vm_compute; reflexivity].
Defined.

(** C3: in the general case the terminator's sweep flag is 0 for a
    crescent and 1 for a gibbous moon when the right side is lit, and the
    inverse when the left side is lit; percent 75, "Waxing Gibbous",
    "Southern" is lit on the left with sweep flag 0 and rx 22.5. *)
Theorem terminator_sweep_rule (pr : props) (q : Q)
  (Hp : percent pr = JFin q) (H1 : (1#100) < q / 100) (H2 : q / 100 < (99#100)) :
  (exists rx y sw,
     pathD pr = (outerArc (litRight pr) ++ [SArc rx js45 0 0 sw 50 y; SClose])%list /\
     (q / 100 < (1#2) -> sw = if litRight pr then 0%Z else 1%Z) /\
     ((1#2) < q / 100 -> sw = if litRight pr then 1%Z else 0%Z)) /\
  (let ex := {| percent := JFin 75; phase := "Waxing Gibbous"; hemisphere := "Southern" |} in
   litRight ex = false /\
   exists rx, pathD ex = (outerArc false ++ [SArc (JFin rx) js45 0 0 0 50 95; SClose])%list /\
              rx == 45#2).
Proof.
  split.
  - rewrite (pathD_fin_general pr q Hp H1 H2). unfold terminator.
    exists (terminator_rx (JFin (q / 100))), (if litRight pr then 5 else 95),
      (innerSweep (JFin (q / 100)) (litRight pr)).
    split; [reflexivity|]. split.
    + apply innerSweep_lt.
    + apply innerSweep_gt.
  - cbv zeta. split; [reflexivity|].
    exists (4500 # 200). split; [reflexivity | reflexivity].
Qed.

Lemma terminator_sweep_rule_witness :
  (1#100) < 25 / 100 /\ 25 / 100 < (99#100) /\
  ((exists rx y sw,
      pathD {| percent := JFin 25; phase := "Waxing Crescent"; hemisphere := "Northern" |}
      = (outerArc true ++ [SArc rx js45 0 0 sw 50 y; SClose])%list /\
      (25 / 100 < (1#2) -> sw = 0%Z) /\ ((1#2) < 25 / 100 -> sw = 1%Z)) /\
   (let ex := {| percent := JFin 75; phase := "Waxing Gibbous"; hemisphere := "Southern" |} in
    litRight ex = false /\
    exists rx, pathD ex = (outerArc false ++ [SArc (JFin rx) js45 0 0 0 50 95; SClose])%list /\
               rx == 45#2)).
Proof.
  split; [vm_compute; reflexivity|]. split; [vm_compute; reflexivity|].
  apply (terminator_sweep_rule
           {| percent := JFin 25; phase := "Waxing Crescent"; hemisphere := "Northern" |} 25);
    [reflexivity | vm_compute; reflexivity | vm_compute; reflexivity].
Defined.

(** C5: in the Northern hemisphere the right side is lit exactly when the
    moon is waxing; the Southern hemisphere inverts that once. *)
Theorem litRight_hemisphere (x : jsnum) (ph : string) :
  litRight {| percent := x; phase := ph; hemisphere := "Northern" |}
  = isWaxing {| percent := x; phase := ph; hemisphere := "Northern" |} /\
  litRight {| percent := x; phase := ph; hemisphere := "Southern" |}
  = negb (litRight {| percent := x; phase := ph; hemisphere := "Northern" |}).
Proof. split; reflexivity. Qed.

Lemma js_le_ge_excl (p : jsnum) :
  js_le p (JFin (1#100)) = true -> js_ge p (JFin (99#100)) = false.
Proof.
  destruct p as [a| | |]; cbn; try discriminate; [|reflexivity].
  intros H. apply Qle_bool_iff in H. apply Qle_bool_false. lra.
Qed.

(** C6: whatever the phase and hemisphere, [percent/100 >= 0.99] gives the
    full disk and [percent/100 <= 0.01] the empty path; in particular
    percents 0 and 1 are empty and 99 and 100 are the full disk. *)
Theorem pathD_degenerate_cases (pr : props) :
  (js_ge (js_div (percent pr) (JFin 100)) (JFin (99#100)) = true ->
   pathD pr = full_circle_path) /\
  (js_le (js_div (percent pr) (JFin 100)) (JFin (1#100)) = true ->
   pathD pr = empty_path) /\
  pathD (with_percent pr (JFin 0)) = empty_path /\
  pathD (with_percent pr (JFin 1)) = empty_path /\
  pathD (with_percent pr (JFin 99)) = full_circle_path /\
  pathD (with_percent pr (JFin 100)) = full_circle_path.
Proof.
  split; [|split]; [intros H; unfold pathD; rewrite H; reflexivity
                   | intros H; unfold pathD; rewrite js_le_ge_excl, H by exact H;
                     reflexivity |].
  repeat split; reflexivity.
Qed.

Lemma pathD_degenerate_cases_witness :
  let pr := {| percent := JFin 100; phase := "Full Moon"; hemisphere := "Northern" |} in
  js_ge (js_div (percent pr) (JFin 100)) (JFin (99#100)) = true /\
  ((js_ge (js_div (percent pr) (JFin 100)) (JFin (99#100)) = true ->
    pathD pr = full_circle_path) /\
   (js_le (js_div (percent pr) (JFin 100)) (JFin (1#100)) = true ->
    pathD pr = empty_path) /\
   pathD (with_percent pr (JFin 0)) = empty_path /\
   pathD (with_percent pr (JFin 1)) = empty_path /\
   pathD (with_percent pr (JFin 99)) = full_circle_path /\
   pathD (with_percent pr (JFin 100)) = full_circle_path).
Proof.
  cbv zeta. split; [vm_compute; reflexivity|].
  apply pathD_degenerate_cases.
Defined.

(** C7: in the general case the outer arc is a half circle of radius 45
    from the top point (50,5) to the bottom point (50,95) through the
    right edge when the right side is lit, and from the bottom to the top
    through the left edge otherwise; every end point of the path is the
    top or the bottom point. *)
Theorem outer_arc_half_circle (pr : props) (q : Q)
  (Hp : percent pr = JFin q) (H1 : (1#100) < q / 100) (H2 : q / 100 < (99#100)) :
  (exists rx sw,
     pathD pr = ((if litRight pr then [SMove 50 5; SArc js45 js45 0 0 1 50 95]
                  else [SMove 50 95; SArc js45 js45 0 0 1 50 5])
                 ++ [SArc rx js45 0 0 sw 50 (if litRight pr then 5 else 95); SClose])%list) /\
  (match first_arc (pathD pr) with
   | Some (x1, y1, rx, ry, large, sw, x2, y2) =>
       rx = js45 /\ ry = js45 /\ large = 0%Z /\
       (x2 - x1) * (x2 - x1) + (y2 - y1) * (y2 - y1) == (2 * 45) * (2 * 45) /\
       (x1, y1) = (if litRight pr then (50, 5) else (50, 95)) /\
       fst (half_arc_midpoint x1 y1 sw x2 y2) == (if litRight pr then 95 else 5) /\
       snd (half_arc_midpoint x1 y1 sw x2 y2) == 50
   | None => False
   end) /\
  Forall (fun pt => pt = (50, 5) \/ pt = (50, 95)) (endpoints (pathD pr)).
Proof.
  rewrite (pathD_fin_general pr q Hp H1 H2). unfold terminator, outerArc.
  split.
  - eexists _, _. reflexivity.
  - destruct (litRight pr); cbn; (split; [repeat split; reflexivity|]);
      repeat apply Forall_cons; try apply Forall_nil;
      first [left; reflexivity | right; reflexivity].
Qed.

Lemma outer_arc_half_circle_witness :
  let pr := {| percent := JFin 25; phase := "Waning Crescent"; hemisphere := "Northern" |} in
  (exists rx sw,
     pathD pr = ((if litRight pr then [SMove 50 5; SArc js45 js45 0 0 1 50 95]
                  else [SMove 50 95; SArc js45 js45 0 0 1 50 5])
                 ++ [SArc rx js45 0 0 sw 50 (if litRight pr then 5 else 95); SClose])%list) /\
  (match first_arc (pathD pr) with
   | Some (x1, y1, rx, ry, large, sw, x2, y2) =>
       rx = js45 /\ ry = js45 /\ large = 0%Z /\
       (x2 - x1) * (x2 - x1) + (y2 - y1) * (y2 - y1) == (2 * 45) * (2 * 45) /\
       (x1, y1) = (if litRight pr then (50, 5) else (50, 95)) /\
       fst (half_arc_midpoint x1 y1 sw x2 y2) == (if litRight pr then 95 else 5) /\
       snd (half_arc_midpoint x1 y1 sw x2 y2) == 50
   | None => False
   end) /\
  Forall (fun pt => pt = (50, 5) \/ pt = (50, 95)) (endpoints (pathD pr)).
Proof.
  apply (outer_arc_half_circle _ 25);
    [reflexivity | vm_compute; reflexivity | vm_compute; reflexivity].
Defined.

(** [pathD] depends on the hemisphere only through [litRight]. *)
Lemma pathD_ext (pr pr' : props) :
  percent pr = percent pr' -> litRight pr = litRight pr' -> pathD pr = pathD pr'.
Proof. intros Hp Hl. unfold pathD. rewrite Hp, Hl. reflexivity. Qed.

(** C8: a hemisphere other than "Southern" (an unknown string, or none,
    which defaults to "Northern") gives the output of "Northern". *)
Theorem hemisphere_default_northern (r : raw_props)
  (H : raw_hemisphere r <> Some "Southern") :
  pathD (resolve_props r)
  = pathD (resolve_props {| raw_percent := raw_percent r; raw_phase := raw_phase r;
                            raw_hemisphere := Some "Northern" |}).
Proof.
  apply pathD_ext; [reflexivity|].
  destruct r as [x ph [h|]]; cbn in *; [|reflexivity].
  unfold litRight; cbn.
  assert (Hh : String.eqb h "Southern" = false)
    by (apply String.eqb_neq; intros ->; apply H; reflexivity).
  rewrite Hh. reflexivity.
Qed.

Lemma hemisphere_default_northern_witness :
  Some "southern" <> Some "Southern" /\
  pathD (resolve_props {| raw_percent := JFin 30; raw_phase := Some "Waxing Crescent";
                          raw_hemisphere := Some "southern" |})
  = pathD (resolve_props {| raw_percent := JFin 30; raw_phase := Some "Waxing Crescent";
                            raw_hemisphere := Some "Northern" |}).
Proof.
  split; [discriminate|].
  apply (hemisphere_default_northern
           {| raw_percent := JFin 30; raw_phase := Some "Waxing Crescent";
              raw_hemisphere := Some "southern" |}).
  discriminate.
Defined.

(** A finite percent gives the output of the percent clamped to [[0,100]]. *)
Lemma pathD_fin_clamp (pr : props) (q : Q) :
  percent pr = JFin q -> pathD pr = pathD (with_percent pr (JFin (clamp_percent q))).
Proof.
  intros Hp. unfold clamp_percent.
  destruct (Qle_bool q 0) eqn:E0.
  - apply Qle_bool_iff in E0.
    rewrite (pathD_fin_empty pr q Hp) by (rewrite Qdiv100; lra).
    reflexivity.
  - destruct (Qle_bool 100 q) eqn:E1.
    + apply Qle_bool_iff in E1.
      rewrite (pathD_fin_full pr q Hp) by (rewrite Qdiv100; lra).
      reflexivity.
    + apply pathD_ext; [exact Hp | reflexivity].
Qed.

(** C9: a finite percent gives the output of the percent clamped to
    [[0,100]]; above 99 it is the full disk, below 1 the empty path. *)
Theorem pathD_clamped (pr : props) (q : Q) (Hp : percent pr = JFin q) :
  pathD pr = pathD (with_percent pr (JFin (clamp_percent q))) /\
  (99 < q -> pathD pr = full_circle_path) /\
  (q < 1 -> pathD pr = empty_path).
Proof.
  split; [exact (pathD_fin_clamp pr q Hp)|]. split.
  - intros H. apply (pathD_fin_full pr q Hp). rewrite Qdiv100. lra.
  - intros H. apply (pathD_fin_empty pr q Hp). rewrite Qdiv100. lra.
Qed.

Lemma pathD_clamped_witness :
  let pr := {| percent := JFin 250; phase := "Waning Gibbous"; hemisphere := "Southern" |} in
  pathD pr = pathD (with_percent pr (JFin (clamp_percent 250))) /\
  (99 < 250 -> pathD pr = full_circle_path) /\
  (250 < 1 -> pathD pr = empty_path).
Proof. cbv zeta. apply pathD_clamped. reflexivity. Defined.

(** C10: in the general case the terminator's horizontal radius lies in
    [[0, 44.1]], below the disk radius 45. *)
Theorem lune_rx_bounds (pr : props) (q : Q)
  (Hp : percent pr = JFin q) (H1 : (1#100) < q / 100) (H2 : q / 100 < (99#100)) :
  exists rx sw y,
    pathD pr = (outerArc (litRight pr) ++ [SArc (JFin rx) js45 0 0 sw 50 y; SClose])%list /\
    0 <= rx /\ rx <= (441#10) /\ rx < 45.
Proof.
  rewrite (pathD_fin_general pr q Hp H1 H2). unfold terminator.
  rewrite terminator_rx_fin.
  eexists _, _, _. split; [reflexivity|].
  rewrite Qdiv100 in *.
  assert (Ha : 0 <= Qabs ((1#2) + - (q * (1#100))) /\ Qabs ((1#2) + - (q * (1#100))) < (49#100))
    by (apply Qabs_case; intros; split; lra).
  destruct Ha as [Ha0 Ha1].
  set (a := Qabs ((1#2) + - (q * (1#100)))) in *.
  repeat split; lra.
Qed.

Lemma lune_rx_bounds_witness :
  exists rx sw y,
    pathD {| percent := JFin 2; phase := "Waning Crescent"; hemisphere := "Northern" |}
    = (outerArc false ++ [SArc (JFin rx) js45 0 0 sw 50 y; SClose])%list /\
    0 <= rx /\ rx <= (441#10) /\ rx < 45.
Proof.
  apply (lune_rx_bounds {| percent := JFin 2; phase := "Waning Crescent"; hemisphere := "Northern" |} 2);
    [reflexivity | vm_compute; reflexivity | vm_compute; reflexivity].
Defined.

(** C1 (counterexample): a NaN percent is neither clamped nor rejected;
    it fails both degenerate tests and the returned lune carries a NaN
    terminator radius. *)
Lemma pathD_nan_counterexample :
  let pr := {| percent := JNaN; phase := "Waxing Crescent"; hemisphere := "Northern" |} in
  path_has_nan (pathD pr) = true /\
  pathD pr <> full_circle_path /\ pathD pr <> empty_path.
Proof.
  cbv zeta. split; [reflexivity|].
  split; intros H; vm_compute in H; discriminate H.
Qed.

(** Every point of the terminator's ellipse strictly between the two
    anchors lies strictly inside the disk when [0 <= rx < 45]. *)
Lemma terminator_inside_disk (r x y : Q) :
  0 <= r -> r < 45 -> 5 < y < 95 -> in_terminator_ellipse r x y ->
  (x - 50) * (x - 50) + (y - 50) * (y - 50) < 45 * 45.
Proof.
  unfold in_terminator_ellipse. intros H0 H1 [H2 H3] H.
  assert (Hy : 0 < (y - 5) * (95 - y)) by (apply Qmult_lt_0_compat; lra).
  assert (Hb : (y - 50) * (y - 50) < 45 * 45) by nra.
  assert (Hr : r * r < 45 * 45) by nra.
  set (a := (x - 50) * (x - 50)) in *. set (b := (y - 50) * (y - 50)) in *.
  set (sq := r * r) in *.
  assert (Hm : sq * (45 * 45 - b) < (45 * 45) * (45 * 45 - b)) by (apply Qmult_lt_r; lra).
  lra.
Qed.

(** A lune returned for a non-NaN percent has a finite terminator radius
    in [[0, 45)]. *)
Lemma lune_rx_finite (pr : props) (rx : jsnum) (sw : Z) (y : Q) :
  percent pr <> JNaN ->
  pathD pr = (outerArc (litRight pr) ++ [SArc rx js45 0 0 sw 50 y; SClose])%list ->
  exists r, rx = JFin r /\ 0 <= r /\ r < 45.
Proof.
  intros Hn H. unfold pathD in H.
  destruct (percent pr) as [q| | |]; [| congruence | |].
  - rewrite js_div_100 in H.
    destruct (js_ge (JFin (q / 100)) (JFin (99#100))) eqn:Eg;
      [destruct (litRight pr); discriminate H|].
    destruct (js_le (JFin (q / 100)) (JFin (1#100))) eqn:El;
      [destruct (litRight pr); discriminate H|].
    apply app_inv_head in H. cbn [terminator app] in H.
    injection H as Hrx _ _. rewrite terminator_rx_fin in Hrx.
    exists (45 * 2 * Qabs ((1#2) + - (q / 100))). split; [symmetry; exact Hrx|].
    cbn [js_ge js_le] in Eg, El.
    assert (H1 : (1#100) < q / 100)
      by (apply Qnot_le_lt; intros Hle; apply Qle_bool_iff in Hle; congruence).
    assert (H2 : q / 100 < (99#100))
      by (apply Qnot_le_lt; intros Hle; apply Qle_bool_iff in Hle; congruence).
    rewrite Qdiv100 in *.
    assert (Ha : 0 <= Qabs ((1#2) + - (q * (1#100))) /\
                 Qabs ((1#2) + - (q * (1#100))) < (49#100))
      by (apply Qabs_case; intros; split; lra).
    destruct Ha as [Ha0 Ha1].
    set (a := Qabs ((1#2) + - (q * (1#100)))) in *.
    split; lra.
  - destruct (litRight pr); discriminate H.
  - destruct (litRight pr); discriminate H.
Qed.

(** C1 (amended): [pathD] is total and has no explicit clamp or input
    check.  A finite percent gives the output of the percent clamped to
    [[0,100]], [Infinity] gives the full disk and [-Infinity] the empty
    path.  For a non-NaN percent the path has no NaN component and every
    lune it returns has a finite terminator radius [0 <= rx < 45] whose
    ellipse lies strictly inside the disk between the two anchors, so the
    terminator meets the outer half circle only at the anchors.  A NaN
    percent is not caught: it fails both degenerate-case tests and gives
    the general-case lune with a NaN terminator radius. *)
Theorem pathD_nonfinite_percent (pr : props) :
  (forall q, percent pr = JFin q ->
     pathD pr = pathD (with_percent pr (JFin (clamp_percent q)))) /\
  (percent pr = JPosInf -> pathD pr = full_circle_path) /\
  (percent pr = JNegInf -> pathD pr = empty_path) /\
  (percent pr <> JNaN ->
     path_has_nan (pathD pr) = false /\
     forall rx sw y,
       pathD pr = (outerArc (litRight pr) ++ [SArc rx js45 0 0 sw 50 y; SClose])%list ->
       exists r, rx = JFin r /\ 0 <= r /\ r < 45 /\
         forall px py, 5 < py < 95 -> in_terminator_ellipse r px py ->
           (px - 50) * (px - 50) + (py - 50) * (py - 50) < 45 * 45) /\
  (percent pr = JNaN ->
     js_ge (js_div (percent pr) (JFin 100)) (JFin (99#100)) = false /\
     js_le (js_div (percent pr) (JFin 100)) (JFin (1#100)) = false /\
     exists sw,
       pathD pr = (outerArc (litRight pr) ++
                   [SArc JNaN js45 0 0 sw 50 (if litRight pr then 5 else 95); SClose])%list).
Proof.
  split; [intros q Hp; exact (pathD_fin_clamp pr q Hp)|].
  split; [intros Hp; unfold pathD; rewrite Hp; reflexivity|].
  split; [intros Hp; unfold pathD; rewrite Hp; reflexivity|].
  split.
  - intros Hn. split.
    + unfold pathD.
      destruct (percent pr) as [q| | |] eqn:Hp; [| congruence | reflexivity | reflexivity].
      rewrite js_div_100.
      destruct (js_ge _ _); [reflexivity|]. destruct (js_le _ _); [reflexivity|].
      unfold terminator. rewrite terminator_rx_fin.
      destruct (litRight pr); reflexivity.
    + intros rx sw y H.
      destruct (lune_rx_finite pr rx sw y Hn H) as (r & Hr & H0 & H1).
      exists r. split; [exact Hr|]. split; [exact H0|]. split; [exact H1|].
      intros px py Hpy He. exact (terminator_inside_disk r px py H0 H1 Hpy He).
  - intros Hp. rewrite Hp. split; [reflexivity|]. split; [reflexivity|].
    exists (innerSweep JNaN (litRight pr)).
    unfold pathD. rewrite Hp. reflexivity.
Qed.

Lemma pathD_nonfinite_percent_witness :
  let pr := {| percent := JNaN; phase := "Full Moon"; hemisphere := "Southern" |} in
  percent pr = JNaN /\
  exists sw,
    pathD pr = (outerArc true ++ [SArc JNaN js45 0 0 sw 50 5; SClose])%list.
Proof.
  cbv zeta. split; [reflexivity|].
  destruct (pathD_nonfinite_percent
              {| percent := JNaN; phase := "Full Moon"; hemisphere := "Southern" |})
    as (_ & _ & _ & _ & H).
  destruct (H eq_refl) as (_ & _ & Hsw). exact Hsw.
Defined.

(** ** Further properties of the code *)

Section ClockFacts.
Local Open Scope Z_scope.

Lemma in_day_hours (h : Z) : 0 <= h <= 23 -> In h day_hours.
Proof.
  intros Hh. unfold day_hours. apply in_map_iff.
  exists (Z.to_nat h). split; [lia | apply in_seq; lia].
Qed.

Lemma calendar_day_cases (d : Z) :
  1 <= d <= 31 -> In d (map (fun i => Z.of_nat i + 1) (seq 0 31)).
Proof.
  intros Hd. apply in_map_iff.
  exists (Z.to_nat (d - 1)). split; [lia | apply in_seq; lia].
Qed.

(** The English suffix of every day of the month: "st" for 1, 21, 31,
    "nd" for 2, 22, "rd" for 3, 23 and "th" for every other day,
    11, 12 and 13 included. *)
Theorem ordinal_suffix_calendar_days (d : Z) (H : 1 <= d <= 31) :
  (ordinal_suffix d = "st" <-> d = 1 \/ d = 21 \/ d = 31) /\
  (ordinal_suffix d = "nd" <-> d = 2 \/ d = 22) /\
  (ordinal_suffix d = "rd" <-> d = 3 \/ d = 23) /\
  (ordinal_suffix d = "th" <->
     ~ (d = 1 \/ d = 21 \/ d = 31 \/ d = 2 \/ d = 22 \/ d = 3 \/ d = 23)).
Proof.
  apply calendar_day_cases in H. cbn in H.
  repeat destruct H as [<- | H]; [..| contradiction];
    vm_compute; intuition (try discriminate; try lia).
Qed.

Lemma ordinal_suffix_calendar_days_witness :
  1 <= 12 <= 31 /\
  (ordinal_suffix 12 = "st" <-> 12 = 1 \/ 12 = 21 \/ 12 = 31) /\
  (ordinal_suffix 12 = "nd" <-> 12 = 2 \/ 12 = 22) /\
  (ordinal_suffix 12 = "rd" <-> 12 = 3 \/ 12 = 23) /\
  (ordinal_suffix 12 = "th" <->
     ~ (12 = 1 \/ 12 = 21 \/ 12 = 31 \/ 12 = 2 \/ 12 = 22 \/ 12 = 3 \/ 12 = 23)).
Proof. split; [lia|]. apply ordinal_suffix_calendar_days. lia. Defined.

(** Over the hours of a day the phase never goes back: a later hour has
    the same or a later phase. *)
Theorem timePhase_monotone (h1 h2 : Z) (H1 : 0 <= h1) (H12 : h1 <= h2) (H2 : h2 <= 23) :
  (clock_phase_index (timePhase_branch h1) <= clock_phase_index (timePhase_branch h2))%nat.
Proof.
  assert (E1 : In h1 day_hours) by (apply in_day_hours; lia).
  assert (E2 : In h2 day_hours) by (apply in_day_hours; lia).
  clear H1 H2. cbn in E1, E2.
  repeat destruct E1 as [<- | E1]; try contradiction;
    repeat destruct E2 as [<- | E2]; try contradiction;
    vm_compute; lia.
Qed.

Lemma timePhase_monotone_witness :
  (clock_phase_index (timePhase_branch 4) <= clock_phase_index (timePhase_branch 21))%nat.
Proof. apply (timePhase_monotone 4 21); lia. Defined.

(** The phase changes exactly at 03, 06, 12, 14, 17, 20 and 22 o'clock;
    midnight starts "silent watch" and 22 and 23 o'clock are "night's
    depth". *)
Theorem timePhase_boundaries (h : Z) (H : 1 <= h <= 23) :
  (timePhase_branch h <> timePhase_branch (h - 1) <-> In h [3; 6; 12; 14; 17; 20; 22]) /\
  timePhase_branch 0 = SilentWatch /\ timePhase_branch 23 = NightsDepth.
Proof.
  split; [|split; reflexivity].
  assert (E : In h day_hours) by (apply in_day_hours; lia).
  cbn in E.
  repeat destruct E as [<- | E]; try contradiction; try lia;
    vm_compute; intuition (try discriminate; try lia).
Qed.

Lemma timePhase_boundaries_witness :
  (timePhase_branch 12 <> timePhase_branch (12 - 1) <-> In 12 [3; 6; 12; 14; 17; 20; 22]) /\
  timePhase_branch 0 = SilentWatch /\ timePhase_branch 23 = NightsDepth.
Proof. apply timePhase_boundaries. lia. Defined.

(** The older, untranslated clock picks its English text with the same
    hour ranges as the translated one: for every hour it shows the
    English text of the phase whose key the translated clock looks up. *)
Theorem timePhase_plain_same_ranges (h : Z) :
  timePhase_plain h = clock_phase_english (timePhase_branch h).
Proof.
  unfold timePhase_plain, timePhase_branch.
  repeat match goal with
         | |- context [if ?b then _ else _] => destruct b
         end; reflexivity.
Qed.

End ClockFacts.

Module AppFacts.
Import App.

Section Facts.
Variable Loc : Type.
Variable loc_name : Loc -> jstr.
Variable Coord : Type.
Variable loc_lat : Loc -> Coord.
Variable loc_lon : Loc -> Coord.
Variable AstroData : Type.
Variable DateStr : Type.
Variable search_location : jstr -> resp (list Loc).
Variable reverse_geocode : Coord -> Coord -> resp Loc.
Variable astro_data : Coord -> Coord -> DateStr -> resp AstroData.

Lemma watch_fires_selected (loc : Loc) (s : state Loc Coord AstroData DateStr) :
  locationDetails s = Some loc -> watch_fires loc_name (loc_name loc) s = false.
Proof.
  intros Hl. unfold watch_fires. rewrite Hl.
  destruct (loc_name loc); [reflexivity|].
  destruct (list_eq_dec N.eq_dec _ _) as [_|Hne]; [reflexivity | congruence].
Qed.

(** [fetchData] always ends with [loading] off.  The data panel is then
    shown exactly when the request for the current coordinates and date
    answered with a body, the error exactly when the request failed; the
    location, query and suggestion state are left as they were. *)
Theorem fetchData_settles (s : state Loc Coord AstroData DateStr) :
  let r := astro_data (lat s) (lon s) (date s) in
  let s' := fetchData astro_data s in
  loading s' = false /\
  (main_visible s' = true <-> exists d, r = RespOk (Some d)) /\
  (error_visible s' = true <-> r = RespErr) /\
  lat s' = lat s /\ lon s' = lon s /\ searchQuery s' = searchQuery s /\
  locationDetails s' = locationDetails s /\ isSearching s' = isSearching s /\
  suggestions s' = suggestions s /\ showSuggestions s' = showSuggestions s.
Proof.
  cbv zeta. unfold fetchData. cbn.
  destruct (astro_data (lat s) (lon s) (date s)) as [[d|]|]; cbn;
    (split; [reflexivity|]).
  - split; [split; [intros _; exists d; reflexivity | reflexivity]|].
    split; [split; discriminate|]. repeat split.
  - split; [split; [discriminate | intros [d' Hd]; discriminate Hd]|].
    split; [split; discriminate|]. repeat split.
  - split; [split; [discriminate | intros [d' Hd]; discriminate Hd]|].
    split; [split; reflexivity|]. repeat split.
Qed.

(** [fetchSuggestions] on a query shorter than three code units sends no
    request: whatever the geocoder would answer, it only empties the
    suggestions, and the dropdown is hidden. *)
Theorem fetchSuggestions_short_query (s : state Loc Coord AstroData DateStr)
  (H : (List.length (searchQuery s) < 3)%nat) :
  (forall g : jstr -> resp (list Loc), fetchSuggestions g s = set_suggestions [] s) /\
  dropdown_visible (fetchSuggestions search_location s) = false.
Proof.
  assert (Hs : forall g : jstr -> resp (list Loc), fetchSuggestions g s = set_suggestions [] s).
  { intros g. unfold fetchSuggestions.
    replace (List.length (searchQuery s) <? 3)%nat with true
      by (symmetry; apply Nat.ltb_lt; exact H).
    rewrite orb_true_r. reflexivity. }
  split; [exact Hs|]. rewrite Hs. unfold dropdown_visible. cbn.
  apply andb_false_r.
Qed.

(** On a query of three or more code units, a failed request leaves the
    page state unchanged (earlier suggestions stay), and an answered one
    replaces the suggestions by the body ([[]] for a [null] body) and
    opens the dropdown. *)
Theorem fetchSuggestions_long_query (s : state Loc Coord AstroData DateStr)
  (H : (3 <= List.length (searchQuery s))%nat) :
  (search_location (searchQuery s) = RespErr -> fetchSuggestions search_location s = s) /\
  (forall d, search_location (searchQuery s) = RespOk d ->
     let s' := fetchSuggestions search_location s in
     suggestions s' = match d with Some l => l | None => [] end /\
     showSuggestions s' = true /\ searchQuery s' = searchQuery s).
Proof.
  assert (Hg : forall g : jstr -> resp (list Loc),
             fetchSuggestions g s =
             match g (searchQuery s) with
             | RespOk d => set_showSuggestions true
                             (set_suggestions (match d with Some l => l | None => [] end) s)
             | RespErr => s
             end).
  { intros g. unfold fetchSuggestions.
    replace (List.length (searchQuery s) <? 3)%nat with false
      by (symmetry; apply Nat.ltb_ge; exact H).
    destruct (searchQuery s); [cbn in H; lia | reflexivity]. }
  split.
  - intros He. rewrite Hg, He. reflexivity.
  - intros d Hd. cbv zeta. rewrite Hg, Hd. repeat split.
Qed.

(** Choosing a suggestion closes the dropdown, moves the coordinates and
    the query to the chosen place, fetches the data for that place, and
    the query watcher's check then does not search again. *)
Theorem selectLocation_effect (loc : Loc) (s : state Loc Coord AstroData DateStr) :
  let s' := selectLocation loc_name loc_lat loc_lon astro_data loc s in
  dropdown_visible s' = false /\
  searchQuery s' = loc_name loc /\ lat s' = loc_lat loc /\ lon s' = loc_lon loc /\
  locationDetails s' = Some loc /\
  watch_fires loc_name (searchQuery s') s' = false /\
  loading s' = false /\
  (main_visible s' = true <->
     exists d, astro_data (loc_lat loc) (loc_lon loc) (date s) = RespOk (Some d)) /\
  (error_visible s' = true <-> astro_data (loc_lat loc) (loc_lon loc) (date s) = RespErr).
Proof.
  cbv zeta. unfold selectLocation, fetchData. cbn.
  assert (Hw : forall s0 : state Loc Coord AstroData DateStr,
             locationDetails s0 = Some loc -> watch_fires loc_name (loc_name loc) s0 = false)
    by (intros s0; apply watch_fires_selected).
  destruct (astro_data (loc_lat loc) (loc_lon loc) (date s)) as [[d|]|]; cbn;
    (split; [reflexivity|]); (split; [reflexivity|]); (split; [reflexivity|]);
    (split; [reflexivity|]); (split; [reflexivity|]);
    (split; [apply Hw; reflexivity|]); (split; [reflexivity|]).
  - split; [split; [intros _; exists d; reflexivity | reflexivity]|].
    split; discriminate.
  - split; [split; [discriminate | intros [d' Hd]; discriminate Hd]|].
    split; discriminate.
  - split; [split; [discriminate | intros [d' Hd]; discriminate Hd]|].
    split; reflexivity.
Qed.

(** [searchLocation] on an empty query does nothing.  On a non-empty one
    whose lookup fails or finds no place, it ends with [isSearching] off,
    the dropdown closed, the place details cleared and an error, but it
    keeps the previous coordinates and the previous astronomical data,
    which stays on display. *)
Theorem searchLocation_no_result (s : state Loc Coord AstroData DateStr) :
  let s' := searchLocation loc_lat loc_lon search_location astro_data s in
  (searchQuery s = [] -> s' = s) /\
  (searchQuery s <> [] ->
   (forall r, search_location (searchQuery s) = r ->
      (r = RespErr \/ r = RespOk None \/ r = RespOk (Some [])) ->
      isSearching s' = false /\
      error s' = Some (match r with RespErr => msg_geocoding | _ => msg_not_found end) /\
      lat s' = lat s /\ lon s' = lon s /\ astroData s' = astroData s /\
      loading s' = loading s /\
      locationDetails s' = None /\ dropdown_visible s' = false)).
Proof.
  cbv zeta. unfold searchLocation.
  split; [intros ->; reflexivity|].
  intros Hq r Hr Hcases.
  destruct (searchQuery s) as [|c q] eqn:Eq; [congruence|]. cbn.
  rewrite ?Eq, Hr.
  destruct Hcases as [-> | [-> | ->]]; cbn; repeat split.
Qed.

(** When the lookup of a non-empty query finds places, [searchLocation]
    takes the first one: coordinates and place details become that
    place's, the data is fetched for it, and it ends with [isSearching]
    and [loading] off and the dropdown closed. *)
Theorem searchLocation_found (s : state Loc Coord AstroData DateStr)
  (loc : Loc) (rest : list Loc)
  (Hq : searchQuery s <> [])
  (Hr : search_location (searchQuery s) = RespOk (Some (loc :: rest))) :
  let s' := searchLocation loc_lat loc_lon search_location astro_data s in
  isSearching s' = false /\ loading s' = false /\ dropdown_visible s' = false /\
  lat s' = loc_lat loc /\ lon s' = loc_lon loc /\ locationDetails s' = Some loc /\
  searchQuery s' = searchQuery s /\
  (main_visible s' = true <->
     exists d, astro_data (loc_lat loc) (loc_lon loc) (date s) = RespOk (Some d)) /\
  (error_visible s' = true <-> astro_data (loc_lat loc) (loc_lon loc) (date s) = RespErr).
Proof.
  cbv zeta. unfold searchLocation.
  destruct (searchQuery s) as [|c q] eqn:Eq; [congruence|]. cbn. rewrite ?Eq, Hr.
  unfold fetchData. cbn.
  destruct (astro_data (loc_lat loc) (loc_lon loc) (date s)) as [[d|]|]; cbn;
    do 7 (split; [first [reflexivity | exact (eq_sym Eq) | exact Eq]|]).
  - split; [split; [intros _; exists d; reflexivity | reflexivity]|].
    split; discriminate.
  - split; [split; [discriminate | intros [d' Hd]; discriminate Hd]|].
    split; discriminate.
  - split; [split; [discriminate | intros [d' Hd]; discriminate Hd]|].
    split; reflexivity.
Qed.

(** [getUserLocation] without browser geolocation only sets an error (it
    does not touch [isSearching]).  With it, every outcome ends with
    [isSearching] off; a denied permission or a failed or empty reverse
    lookup sets its error and keeps the previous coordinates and query. *)
Theorem getUserLocation_settles (g : geo_outcome Coord) (s : state Loc Coord AstroData DateStr) :
  getUserLocation loc_name loc_lat loc_lon reverse_geocode astro_data false g s
  = set_error (Some msg_no_geolocation) s /\
  let s' := getUserLocation loc_name loc_lat loc_lon reverse_geocode astro_data true g s in
  isSearching s' = false /\
  (g = GeoDenied ->
     error s' = Some msg_denied /\ lat s' = lat s /\ lon s' = lon s /\
     searchQuery s' = searchQuery s) /\
  (forall la lo, g = GeoPosition la lo ->
     (reverse_geocode la lo = RespErr \/ reverse_geocode la lo = RespOk None) ->
     error s' = Some msg_unidentified /\ lat s' = lat s /\ lon s' = lon s /\
     searchQuery s' = searchQuery s).
Proof.
  split; [reflexivity|]. cbv zeta. unfold getUserLocation. cbn.
  destruct g as [la lo|].
  - split; [destruct (reverse_geocode la lo) as [[loc|]|]; reflexivity|].
    split; [discriminate|].
    intros la' lo' Hg Hr. injection Hg as <- <-.
    destruct Hr as [-> | ->]; repeat split.
  - split; [reflexivity|]. split; [intros _; repeat split|].
    intros la lo Hg. discriminate Hg.
Qed.

(** When the browser reports a position and the reverse lookup names a
    place, [getUserLocation] moves the coordinates and the query to that
    place, fetches its data, ends with [isSearching] off, and the query
    watcher's check then does not search again. *)
Theorem getUserLocation_found (s : state Loc Coord AstroData DateStr)
  (la lo : Coord) (loc : Loc)
  (Hr : reverse_geocode la lo = RespOk (Some loc)) :
  let s' := getUserLocation loc_name loc_lat loc_lon reverse_geocode astro_data
              true (GeoPosition la lo) s in
  isSearching s' = false /\ loading s' = false /\
  lat s' = loc_lat loc /\ lon s' = loc_lon loc /\ locationDetails s' = Some loc /\
  searchQuery s' = loc_name loc /\
  watch_fires loc_name (searchQuery s') s' = false /\
  (main_visible s' = true <->
     exists d, astro_data (loc_lat loc) (loc_lon loc) (date s) = RespOk (Some d)).
Proof.
  cbv zeta. unfold getUserLocation. cbn. rewrite Hr. unfold fetchData. cbn.
  assert (Hw : forall s0 : state Loc Coord AstroData DateStr,
             locationDetails s0 = Some loc -> watch_fires loc_name (loc_name loc) s0 = false)
    by (intros s0; apply watch_fires_selected).
  destruct (astro_data (loc_lat loc) (loc_lon loc) (date s)) as [[d|]|]; cbn;
    do 6 (split; [reflexivity|]); (split; [apply Hw; reflexivity|]).
  - split; [intros _; exists d; reflexivity | reflexivity].
  - split; [discriminate | intros [d' Hd]; discriminate Hd].
  - split; [discriminate | intros [d' Hd]; discriminate Hd].
Qed.

End Facts.
(** Witnesses, on the concrete page of [AppDemo]. *)

Lemma fetchSuggestions_short_query_witness :
  (List.length (searchQuery (AppDemo.state0 [78%N; 89%N])) < 3)%nat /\
  dropdown_visible (fetchSuggestions AppDemo.search_location (AppDemo.state0 [78%N; 89%N]))
  = false.
Proof.
  split; [cbn; lia|].
  apply (fetchSuggestions_short_query _ _ _ _ AppDemo.search_location
           (AppDemo.state0 [78%N; 89%N])).
  cbn. lia.
Defined.

Lemma fetchSuggestions_long_query_witness :
  (3 <= List.length (searchQuery (AppDemo.state0 [66%N; 114%N; 110%N])))%nat /\
  suggestions (fetchSuggestions AppDemo.search_location (AppDemo.state0 [66%N; 114%N; 110%N]))
  = [AppDemo.brno].
Proof.
  split; [cbn; lia|].
  destruct (fetchSuggestions_long_query _ _ _ _ AppDemo.search_location
              (AppDemo.state0 [66%N; 114%N; 110%N]) ltac:(cbn; lia)) as [_ Hok].
  apply (Hok (Some [AppDemo.brno])). reflexivity.
Defined.

Lemma searchLocation_no_result_witness :
  let s' := searchLocation AppDemo.loc_lat AppDemo.loc_lon AppDemo.search_location_failing
              AppDemo.astro_data (AppDemo.state0 [66%N]) in
  isSearching s' = false /\ error s' = Some msg_geocoding /\
  astroData s' = Some 3%nat /\ lat s' = 48%Z /\ dropdown_visible s' = false.
Proof.
  cbv zeta.
  destruct (searchLocation_no_result _ _ AppDemo.loc_lat AppDemo.loc_lon _ _
              AppDemo.search_location_failing AppDemo.astro_data (AppDemo.state0 [66%N]))
    as [_ Hne].
  destruct (Hne ltac:(discriminate) RespErr eq_refl (or_introl eq_refl))
    as (H1 & H2 & H3 & _ & H5 & _ & _ & H8).
  split; [exact H1|]. split; [exact H2|]. split; [exact H5|].
  split; [exact H3|]. exact H8.
Defined.

Lemma searchLocation_found_witness :
  lat (searchLocation AppDemo.loc_lat AppDemo.loc_lon AppDemo.search_location
         AppDemo.astro_data (AppDemo.state0 [66%N])) = 49%Z.
Proof.
  destruct (searchLocation_found _ _ AppDemo.loc_lat AppDemo.loc_lon _ _
              AppDemo.search_location AppDemo.astro_data (AppDemo.state0 [66%N])
              AppDemo.brno [] ltac:(discriminate) ltac:(reflexivity))
    as (_ & _ & _ & Hlat & _).
  exact Hlat.
Defined.

Lemma getUserLocation_settles_witness :
  error (getUserLocation AppDemo.loc_name AppDemo.loc_lat AppDemo.loc_lon
           AppDemo.reverse_geocode AppDemo.astro_data true GeoDenied (AppDemo.state0 []))
  = Some msg_denied.
Proof.
  destruct (getUserLocation_settles _ AppDemo.loc_name _ AppDemo.loc_lat AppDemo.loc_lon _ _
              AppDemo.reverse_geocode AppDemo.astro_data GeoDenied (AppDemo.state0 []))
    as (_ & _ & Hd & _).
  apply Hd. reflexivity.
Defined.

Lemma getUserLocation_found_witness :
  watch_fires AppDemo.loc_name
    (searchQuery (getUserLocation AppDemo.loc_name AppDemo.loc_lat AppDemo.loc_lon
                    AppDemo.reverse_geocode AppDemo.astro_data true (GeoPosition 0%Z 0%Z)
                    (AppDemo.state0 [])))
    (getUserLocation AppDemo.loc_name AppDemo.loc_lat AppDemo.loc_lon
       AppDemo.reverse_geocode AppDemo.astro_data true (GeoPosition 0%Z 0%Z)
       (AppDemo.state0 [])) = false.
Proof.
  destruct (getUserLocation_found _ AppDemo.loc_name _ AppDemo.loc_lat AppDemo.loc_lon _ _
              AppDemo.reverse_geocode AppDemo.astro_data (AppDemo.state0 [])
              0%Z 0%Z AppDemo.brno ltac:(reflexivity))
    as (_ & _ & _ & _ & _ & _ & Hw & _).
  exact Hw.
Defined.

End AppFacts.
